(** * body-measurement-ai: the keypoint-to-measurement pipeline

    A shallow embedding of [src/bodyMeasurement.ts].

    - JavaScript numbers are IEEE 754 binary64 values: they are modelled by
      Rocq's primitive [float], whose operations are specified against
      [SpecFloat] by the axioms of [FloatAxioms].
    - The objects returned by [detectPose] are object literals; they are
      modelled as finite maps from property names to values, so that the
      ['success' in r] test of the callers can be stated.
    - [detectPose] is an [async] function: it is modelled as a computation
      that, started in some state of the outside world, settles as fulfilled
      or rejected and leaves a new state.  The pose estimator is the only
      external call; it is a field of the [PoseNet] record. *)

From Stdlib Require Import ZArith Lia List Bool Floats Permutation.
From stdpp Require Import base strings gmap.
Import ListNotations.

Local Open Scope string_scope.

(** ** Numbers, values and objects *)

Abbreviation number := float.

(** [Number.isFinite]: neither NaN nor an infinity. *)
Definition isFinite (n : number) : bool := is_finite n.

Inductive value : Type :=
| VNumber (n : number)
| VBoolean (b : bool)
| VString (s : string).

(** ToBoolean on the three kinds of values that occur in a [PoseResult]. *)
Definition truthy (v : value) : bool :=
  match v with
  | VNumber n => negb (is_zero n || is_nan n)
  | VBoolean b => b
  | VString s => negb (s =? "")
  end.

Abbreviation object := (gmap string value).

(** ** The types of the posenet package that the code reads *)

Module Vector2D.
Record t : Type := mk { x : number; y : number }.
End Vector2D.

Module Keypoint.
Record t : Type := mk { score : number; position : Vector2D.t; part : string }.
End Keypoint.

Module Pose.
Record t : Type := mk { keypoints : list Keypoint.t; score : number }.
End Pose.

Record SinglePersonInterfaceConfig : Type := { flipHorizontal : bool }.

(** ** Promises

    A computation started in world [w] settles and leaves a world behind.
    [E] is the type of thrown values (rejection reasons). *)

Inductive settled (E A : Type) : Type :=
| Fulfilled (a : A)
| Rejected (e : E).
Arguments Fulfilled {E A} a.
Arguments Rejected {E A} e.

Definition Promise (W E A : Type) : Type := W -> settled E A * W.

Definition resolve {W E A} (a : A) : Promise W E A :=
  fun w => (Fulfilled a, w).

(** [const x = await m; k x] *)
Definition await {W E A B} (m : Promise W E A) (k : A -> Promise W E B)
  : Promise W E B :=
  fun w =>
    match m w with
    | (Fulfilled a, w') => k a w'
    | (Rejected e, w') => (Rejected e, w')
    end.

(** [try { body } catch (error) { handler error }] *)
Definition try_catch {W E A} (body : Promise W E A) (handler : E -> Promise W E A)
  : Promise W E A :=
  fun w =>
    match body w with
    | (Fulfilled a, w') => (Fulfilled a, w')
    | (Rejected e, w') => handler e w'
    end.

(** The loaded model.  [estimateSinglePose] may change the world, may
    reject, and may fulfil with a falsy value ([None]) or with a pose. *)
Record PoseNet (W E Video : Type) : Type :=
  { estimateSinglePose :
      Video -> SinglePersonInterfaceConfig -> Promise W E (option Pose.t) }.
Arguments estimateSinglePose {W E Video} _ _ _.

(** ** bodyMeasurement.ts *)

(** [calculateDistance], lines 64-71. *)
Definition calculateDistance (point1 point2 : Vector2D.t) : number :=
  let dx := (Vector2D.x point1 - Vector2D.x point2)%float in
  let dy := (Vector2D.y point1 - Vector2D.y point2)%float in
  sqrt (dx * dx + dy * dy)%float.

(** The object literal of the two error returns. *)
Definition ErrorResult_literal (message : string) : object :=
  {[ "success" := VBoolean false; "message" := VString message ]}.

(** The block of [detectPose] under [if (pose)], lines 87-120.
    [Array.prototype.find] is [List.find]: the first element, in index
    order, on which the predicate holds, or [undefined] ([None]). *)
Definition detectPose_measure (pose : Pose.t) : object :=
  let keypoints := Pose.keypoints pose in
  let leftShoulder := find (fun k => Keypoint.part k =? "leftShoulder") keypoints in
  let rightShoulder := find (fun k => Keypoint.part k =? "rightShoulder") keypoints in
  let shoulderWidth :=
    match leftShoulder, rightShoulder with
    | Some leftShoulder, Some rightShoulder =>
        calculateDistance (Keypoint.position leftShoulder) (Keypoint.position rightShoulder)
    | _, _ => 0%float
    end in
  let leftHip := find (fun k => Keypoint.part k =? "leftHip") keypoints in
  let rightHip := find (fun k => Keypoint.part k =? "rightHip") keypoints in
  let hipWidth :=
    match leftHip, rightHip with
    | Some leftHip, Some rightHip =>
        calculateDistance (Keypoint.position leftHip) (Keypoint.position rightHip)
    | _, _ => 0%float
    end in
  let head := find (fun k => Keypoint.part k =? "nose") keypoints in
  let leftAnkle := find (fun k => Keypoint.part k =? "leftAnkle") keypoints in
  let height :=
    match head, leftAnkle with
    | Some head, Some leftAnkle =>
        calculateDistance (Keypoint.position head) (Keypoint.position leftAnkle)
    | _, _ => 0%float
    end in
  {[ "shoulderWidth" := VNumber shoulderWidth;
     "hipWidth" := VNumber hipWidth;
     "height" := VNumber height ]}.

(** [detectPose], lines 76-135. *)
Definition detectPose {W E Video} (video : Video) (net : PoseNet W E Video)
  : Promise W E object :=
  try_catch
    (await (estimateSinglePose net video {| flipHorizontal := false |})
       (fun pose =>
          match pose with
          | Some pose => resolve (detectPose_measure pose)
          | None =>
              resolve (ErrorResult_literal
                         "Pose estimation failed. Could not detect key points.")
          end))
    (fun error =>
       resolve (ErrorResult_literal
                  "An error occurred during pose detection. Please try again.")).

(** ** Vocabulary of the specification *)

(** The formula of the specification, sqrt((x1-x2)^2 + (y1-y2)^2), with every
    operation in binary64. *)
Definition euclidean_distance (x1 y1 x2 y2 : number) : number :=
  sqrt ((x1 - x2) * (x1 - x2) + (y1 - y2) * (y1 - y2))%float.

Definition distance_between (a b : Keypoint.t) : number :=
  euclidean_distance
    (Vector2D.x (Keypoint.position a)) (Vector2D.y (Keypoint.position a))
    (Vector2D.x (Keypoint.position b)) (Vector2D.y (Keypoint.position b)).

(** A keypoint with the given name occurs in the set. *)
Definition present (name : string) (kps : list Keypoint.t) : Prop :=
  exists k, In k kps /\ Keypoint.part k = name.

Definition absent (name : string) (kps : list Keypoint.t) : Prop :=
  forall k, In k kps -> Keypoint.part k <> name.

(** [k] is the first keypoint named [name], in the order of the array. *)
Definition first_named (name : string) (kps : list Keypoint.t) (k : Keypoint.t)
  : Prop :=
  exists pre post,
    kps = (pre ++ k :: post)%list /\ Keypoint.part k = name /\ absent name pre.

(** The invariant of a Keypoint Set: at most one keypoint per part name. *)
Definition unambiguous (kps : list Keypoint.t) : Prop :=
  List.NoDup (map Keypoint.part kps).

(** The set holds a keypoint with this name at this position. *)
Definition keypoint_at (kps : list Keypoint.t) (name : string) (px py : number)
  : Prop :=
  exists k, In k kps /\ Keypoint.part k = name
            /\ Keypoint.position k = Vector2D.mk px py.

Definition finite_position (k : Keypoint.t) : bool :=
  isFinite (Vector2D.x (Keypoint.position k))
  && isFinite (Vector2D.y (Keypoint.position k)).

(** [n >= 0] *)
Definition nonNegative (n : number) : bool := (0 <=? n)%float.

(** The interface [Measurements]: three properties that hold numbers. *)
Definition isMeasurements (o : object) : bool :=
  match o !! "shoulderWidth", o !! "hipWidth", o !! "height" with
  | Some (VNumber _), Some (VNumber _), Some (VNumber _) => true
  | _, _, _ => false
  end.

(** The interface [ErrorResult]: [success] is the literal [false] and
    [message] holds a string. *)
Definition isErrorResult (o : object) : bool :=
  match o !! "success", o !! "message" with
  | Some (VBoolean false), Some (VString _) => true
  | _, _ => false
  end.

(** The test the callers apply: ['success' in r && !r.success]. *)
Definition hasFailureMarker (o : object) : bool :=
  match o !! "success" with
  | Some success => negb (truthy success)
  | None => false
  end.

(** The object literal [{ shoulderWidth, hipWidth, height }]. *)
Definition Measurements_literal (shoulderWidth hipWidth height : number) : object :=
  {[ "shoulderWidth" := VNumber shoulderWidth;
     "hipWidth" := VNumber hipWidth;
     "height" := VNumber height ]}.

(** ** Sample inputs *)

Definition keypoint (part : string) (px py : number) : Keypoint.t :=
  Keypoint.mk 0.5%float (Vector2D.mk px py) part.

Definition pose_of (kps : list Keypoint.t) : Pose.t := Pose.mk kps 0.5%float.

(** Example 1 of the specification. *)
Definition example1 : list Keypoint.t :=
  [ keypoint "leftShoulder" 0 0; keypoint "rightShoulder" 300 0;
    keypoint "leftHip" 50 200; keypoint "rightHip" 300 200;
    keypoint "nose" 150 0; keypoint "leftAnkle" 150 600 ].

(** Example 2 of the specification: only the nose and the left ankle. *)
Definition example2 : list Keypoint.t :=
  [ keypoint "nose" 150 0; keypoint "leftAnkle" 150 600 ].

(** Example 1 with a second, different left shoulder after the first. *)
Definition example1_dup : list Keypoint.t :=
  [ keypoint "leftShoulder" 0 0; keypoint "rightShoulder" 300 0;
    keypoint "leftShoulder" 7 7;
    keypoint "leftHip" 50 200; keypoint "rightHip" 300 200;
    keypoint "nose" 150 0; keypoint "leftAnkle" 150 600 ].

(** A left shoulder whose x coordinate is NaN. *)
Definition example_nan : list Keypoint.t :=
  [ keypoint "leftShoulder" nan 0; keypoint "rightShoulder" 300 0 ].

(** An estimator that settles the same way on every frame and counts the
    frames it was given in the world. *)
Definition countingNet (r : settled string (option Pose.t))
  : PoseNet nat string unit :=
  {| estimateSinglePose := fun _ _ frames => (r, S frames) |}.

(** ** Predicates on [spec_float], the specification of binary64 *)

Module SF.
(** Same magnitude, whatever the signs. *)
Definition same_abs (a b : spec_float) : Prop := SFabs a = SFabs b.

(** A zero, a finite number or an infinity of sign [s]; not NaN. *)
Definition signed (s : bool) (a : spec_float) : bool :=
  match a with
  | S754_zero s' | S754_infinity s' | S754_finite s' _ _ => Bool.eqb s s'
  | S754_nan => false
  end.

Definition not_nan (a : spec_float) : bool :=
  match a with S754_nan => false | _ => true end.

Definition finite (a : spec_float) : bool :=
  match a with S754_zero _ | S754_finite _ _ _ => true | _ => false end.
End SF.

(** ** The three measurements as one pattern

    Each measurement of [detectPose] is the same expression at another pair
    of names: two lookups, then the distance if both were found, else 0. *)

Definition pair_distance (name1 name2 : string) (keypoints : list Keypoint.t)
  : number :=
  match find (fun k => Keypoint.part k =? name1) keypoints,
        find (fun k => Keypoint.part k =? name2) keypoints with
  | Some k1, Some k2 =>
      calculateDistance (Keypoint.position k1) (Keypoint.position k2)
  | _, _ => 0%float
  end.

(** ** The rest of bodyMeasurement.ts: loading the model, opening the camera *)

(** The posenet module; the code calls [posenet.load()] only. *)
Record Posenet (W E Video : Type) : Type :=
  { load : Promise W E (PoseNet W E Video) }.
Arguments load {W E Video} _.

(** [loadPosenet], lines 47-59.  The result has the union type
    [posenet.PoseNet | ErrorResult]: the loaded model on the left, the
    failure object on the right. *)
Definition loadPosenet {W E Video} (posenet : Posenet W E Video)
  : Promise W E (PoseNet W E Video + object) :=
  try_catch
    (await (load posenet) (fun net => resolve (inl net)))
    (fun error =>
       resolve (inr (ErrorResult_literal
                       "Failed to load the PoseNet model. Please check your internet connection."))).

Module MediaTrackConstraints.
Record t : Type := mk { width : number; height : number }.
End MediaTrackConstraints.

Module MediaStreamConstraints.
Record t : Type := mk { video : MediaTrackConstraints.t }.
End MediaStreamConstraints.

(** A promise that may stay pending for ever: [None]. *)
Definition PendingPromise (W E A : Type) : Type := W -> option (settled E A * W).

(** [navigator.mediaDevices]: the code calls [getUserMedia] only.  The
    promise it returns may reject (permission denied, no device), fulfil
    with a stream, or never settle (the prompt is left unanswered). *)
Record MediaDevices (W E Stream : Type) : Type :=
  { getUserMedia : MediaStreamConstraints.t -> PendingPromise W E Stream }.
Arguments getUserMedia {W E Stream} _ _ _.

(** What [setupCamera] uses of the browser.
    - [mediaDevices] is [navigator.mediaDevices]; it is [None] where the
      browser does not provide it, and evaluating
      [navigator.mediaDevices.getUserMedia(...)] then throws;
    - [set_srcObject video stream] is the assignment [video.srcObject = stream];
    - [loadedmetadata video w] is the state in which the element fires
      [loadedmetadata] and the handler installed by [setupCamera] runs, or
      [None] when the event never comes. *)
Record Browser (W E Video Stream : Type) : Type :=
  { mediaDevices : option (MediaDevices W E Stream);
    set_srcObject : Video -> Stream -> W -> W;
    loadedmetadata : Video -> W -> option W }.
Arguments mediaDevices {W E Video Stream} _.
Arguments set_srcObject {W E Video Stream} _ _ _ _.
Arguments loadedmetadata {W E Video Stream} _ _ _.

(** [setupCamera], lines 24-42.  Everything up to the [return] is inside
    [try]: an exception of the call expression and a rejection of the
    awaited promise both reach [catch].  The promise returned from inside
    [try] is resolved by the [onloadedmetadata] handler alone, with the
    element that was passed in. *)
Definition setupCamera {W E Video Stream}
    (browser : Browser W E Video Stream) (video : Video)
  : PendingPromise W E (Video + object) :=
  fun w =>
    match mediaDevices browser with
    | None =>
        Some (Fulfilled
                (inr (ErrorResult_literal
                        "Failed to access the camera. Please check camera permissions.")),
              w)
    | Some devices =>
        match getUserMedia devices
                (MediaStreamConstraints.mk (MediaTrackConstraints.mk 640 480)) w with
        | None => None
        | Some (Fulfilled stream, w1) =>
            let w2 := set_srcObject browser video stream w1 in
            match loadedmetadata browser video w2 with
            | Some w3 => Some (Fulfilled (inl video), w3)
            | None => None
            end
        | Some (Rejected error, w1) =>
            Some (Fulfilled
                    (inr (ErrorResult_literal
                            "Failed to access the camera. Please check camera permissions.")),
                  w1)
        end
    end.

(** The callers' test on a result of union type: a model or a video
    element has no [success] property. *)
Definition failed {A} (r : A + object) : bool :=
  match r with
  | inl _ => false
  | inr o => hasFailureMarker o
  end.

(** ** More vocabulary for the measurements *)

(** What a keypoint set says about the keypoints of the given names: their
    names and positions, in order; scores and other keypoints left out. *)
Definition named_positions (names : list string) (kps : list Keypoint.t)
  : list (string * Vector2D.t) :=
  map (fun k => (Keypoint.part k, Keypoint.position k))
      (List.filter (fun k => existsb (String.eqb (Keypoint.part k)) names) kps).

(** The position the code uses for a name: that of the first match. *)
Definition position_of (name : string) (kps : list Keypoint.t)
  : option Vector2D.t :=
  option_map Keypoint.position (find (fun k => Keypoint.part k =? name) kps).

(** An infinity of either sign, in [spec_float]. *)
Definition SF_infinite (a : spec_float) : bool :=
  match a with S754_infinity _ => true | _ => false end.

Definition has_nan_coordinate (k : Keypoint.t) : bool :=
  is_nan (Vector2D.x (Keypoint.position k))
  || is_nan (Vector2D.y (Keypoint.position k)).

(** A model that loads, or fails to, and counts the attempts. *)
Definition countingPosenet (r : settled string (PoseNet nat string unit))
  : Posenet nat string unit :=
  {| load := fun attempts => (r, S attempts) |}.

(** A browser for the samples; the world counts the steps taken.
    [camera] is [None] without [navigator.mediaDevices], [Some None] when
    the permission prompt is never answered, and [Some (Some r)] when
    [getUserMedia] settles as [r].  The metadata event comes iff [fires]. *)
Definition sampleBrowser (camera : option (option (settled string nat)))
    (fires : bool)
  : Browser nat string unit nat :=
  {| mediaDevices :=
       option_map
         (fun answer =>
            {| getUserMedia :=
                 fun _ w => option_map (fun r => (r, S w)) answer |})
         camera;
     set_srcObject := fun _ stream w => w + stream;
     loadedmetadata := fun _ w => if fires then Some (S w) else None |}.

(** * Properties *)

(** ** Rounding in [SpecFloat]: signs and magnitudes *)

Section Rounding.
Variables prec emax : Z.

Lemma shr_1_nonneg mrs : (0 <= shr_m mrs)%Z -> (0 <= shr_m (shr_1 mrs))%Z.
Proof.
  destruct mrs as [m r s]; simpl.
  destruct m as [|p|p]; simpl; try lia.
  destruct p; simpl; lia.
Qed.

Lemma iter_pos_shr_1_nonneg p : forall mrs,
  (0 <= shr_m mrs)%Z -> (0 <= shr_m (SpecFloat.iter_pos shr_1 p mrs))%Z.
Proof.
  induction p as [p IH|p IH|]; intros mrs H; simpl.
  - apply IH, IH, shr_1_nonneg, H.
  - apply IH, IH, H.
  - apply shr_1_nonneg, H.
Qed.

Lemma shr_fexp_nonneg m e l :
  (0 <= m)%Z -> (0 <= shr_m (fst (shr_fexp prec emax m e l)))%Z.
Proof.
  intros H. unfold shr_fexp, shr.
  assert (H0 : (0 <= shr_m (shr_record_of_loc m l))%Z)
    by (destruct l as [|[]]; exact H).
  destruct (fexp prec emax (Zdigits2 m + e) - e)%Z; simpl; auto.
  apply iter_pos_shr_1_nonneg, H0.
Qed.

Lemma round_nearest_even_nonneg m l :
  (0 <= m)%Z -> (0 <= round_nearest_even m l)%Z.
Proof.
  intros H. destruct l as [|[]]; simpl; try lia.
  destruct (Z.even m); lia.
Qed.

Lemma binary_round_aux_signed s m e l :
  (0 <= m)%Z -> SF.signed s (binary_round_aux prec emax s m e l) = true.
Proof.
  intros H. unfold binary_round_aux.
  pose proof (shr_fexp_nonneg m e l H) as H1.
  destruct (shr_fexp prec emax m e l) as [mrs' e']. simpl in H1.
  pose proof (shr_fexp_nonneg _ e' loc_Exact
                (round_nearest_even_nonneg _ (loc_of_shr_record mrs') H1)) as H2.
  destruct (shr_fexp prec emax _ e' loc_Exact) as [mrs'' e'']. simpl in H2.
  destruct (shr_m mrs'') as [|p|p]; simpl.
  - apply Bool.eqb_reflx.
  - destruct (e'' <=? emax - prec)%Z; simpl; apply Bool.eqb_reflx.
  - lia.
Qed.

Lemma binary_round_aux_same_abs s s' m e l :
  SF.same_abs (binary_round_aux prec emax s m e l)
              (binary_round_aux prec emax s' m e l).
Proof.
  unfold SF.same_abs, binary_round_aux.
  destruct (shr_fexp prec emax m e l) as [mrs' e'].
  destruct (shr_fexp prec emax _ e' loc_Exact) as [mrs'' e''].
  destruct (shr_m mrs''); simpl; try reflexivity.
  destruct (e'' <=? emax - prec)%Z; reflexivity.
Qed.

Lemma binary_round_signed s m e :
  SF.signed s (binary_round prec emax s m e) = true.
Proof.
  unfold binary_round. destruct (shl_align _ _ _) as [mz ez].
  apply binary_round_aux_signed. lia.
Qed.

Lemma binary_round_same_abs s s' m e :
  SF.same_abs (binary_round prec emax s m e) (binary_round prec emax s' m e).
Proof.
  unfold binary_round. destruct (shl_align _ _ _) as [mz ez].
  apply binary_round_aux_same_abs.
Qed.

Lemma binary_normalize_not_nan m e :
  SF.not_nan (binary_normalize prec emax m e false) = true.
Proof.
  destruct m as [|p|p]; simpl; try reflexivity.
  - pose proof (binary_round_signed false p e) as H.
    destruct (binary_round prec emax false p e); simpl in *; congruence.
  - pose proof (binary_round_signed true p e) as H.
    destruct (binary_round prec emax true p e); simpl in *; congruence.
Qed.

Lemma binary_normalize_opp_same_abs m e :
  SF.same_abs (binary_normalize prec emax (- m) e false)
              (binary_normalize prec emax m e false).
Proof.
  destruct m as [|p|p]; simpl; try reflexivity; apply binary_round_same_abs.
Qed.

(** [a - b] and [b - a] have the same magnitude. *)
Lemma SFsub_swap_same_abs a b :
  SF.same_abs (SFsub prec emax a b) (SFsub prec emax b a).
Proof.
  destruct a as [sa|sa| |sa ma ea], b as [sb|sb| |sb mb eb];
    try (destruct sa, sb; reflexivity);
    try (destruct sa; reflexivity); try (destruct sb; reflexivity);
    try reflexivity.
  unfold SFsub. rewrite (Z.min_comm eb ea).
  set (ez := Z.min ea eb).
  set (A := cond_Zopp sa _). set (B := cond_Zopp sb _).
  replace (B - A)%Z with (- (A - B))%Z by lia.
  unfold SF.same_abs. symmetry. apply binary_normalize_opp_same_abs.
Qed.

(** A square depends on the magnitude only. *)
Lemma SFmul_square_same_abs a b :
  SF.same_abs a b -> SFmul prec emax a a = SFmul prec emax b b.
Proof.
  unfold SF.same_abs.
  destruct a as [sa|sa| |sa ma ea], b as [sb|sb| |sb mb eb];
    simpl; intros H; try discriminate; try reflexivity;
    try (destruct sa, sb; reflexivity).
  injection H as -> ->. destruct sa, sb; reflexivity.
Qed.

Lemma SFsub_finite_not_nan a b :
  SF.finite a = true -> SF.finite b = true ->
  SF.not_nan (SFsub prec emax a b) = true.
Proof.
  destruct a as [sa|sa| |sa ma ea], b as [sb|sb| |sb mb eb];
    simpl; intros Ha Hb; try discriminate; try reflexivity.
  - destruct sa, sb; reflexivity.
  - apply binary_normalize_not_nan.
Qed.

Lemma SFmul_square_signed a :
  SF.not_nan a = true -> SF.signed false (SFmul prec emax a a) = true.
Proof.
  destruct a as [sa|sa| |sa ma ea]; simpl; intros H; try discriminate;
    try (destruct sa; reflexivity).
  replace (xorb sa sa) with false by (destruct sa; reflexivity).
  apply binary_round_aux_signed. lia.
Qed.

Lemma SFadd_signed a b :
  SF.signed false a = true -> SF.signed false b = true ->
  SF.signed false (SFadd prec emax a b) = true.
Proof.
  destruct a as [sa|sa| |sa ma ea], b as [sb|sb| |sb mb eb];
    simpl; intros Ha Hb; try discriminate;
    destruct sa; try discriminate; destruct sb; try discriminate;
    try reflexivity.
  simpl. apply binary_round_signed.
Qed.

Lemma SFsqrt_signed a :
  SF.signed false a = true -> SF.signed false (SFsqrt prec emax a) = true.
Proof.
  destruct a as [sa|sa| |sa ma ea]; simpl; intros H; try discriminate;
    destruct sa; try discriminate; try reflexivity.
  unfold SFsqrt_core_binary.
  set (e' := Z.min _ _). set (m' := match (ea - 2 * e')%Z with Z0 => _ | Zpos _ => _ | Zneg _ => _ end).
  assert (Hm : (0 <= m')%Z).
  { unfold m'. destruct (ea - 2 * e')%Z; try lia. apply Z.shiftl_nonneg. lia. }
  pose proof (Z.sqrtrem_spec m' Hm) as Hs.
  destruct (Z.sqrtrem m') as [q r].
  apply binary_round_aux_signed. lia.
Qed.
End Rounding.

(** ** [calculateDistance] in binary64 *)

Lemma Prim2SF_calculateDistance p q :
  Prim2SF (calculateDistance p q)
  = let dx := SF64sub (Prim2SF (Vector2D.x p)) (Prim2SF (Vector2D.x q)) in
    let dy := SF64sub (Prim2SF (Vector2D.y p)) (Prim2SF (Vector2D.y q)) in
    SF64sqrt (SF64add (SF64mul dx dx) (SF64mul dy dy)).
Proof.
  unfold calculateDistance.
  now rewrite FloatAxioms.sqrt_spec, FloatAxioms.add_spec, !FloatAxioms.mul_spec, !FloatAxioms.sub_spec.
Qed.

(** The code computes the formula of the specification. *)
Lemma calculateDistance_euclidean p q :
  calculateDistance p q
  = euclidean_distance (Vector2D.x p) (Vector2D.y p) (Vector2D.x q) (Vector2D.y q).
Proof. reflexivity. Qed.

(** The formula is evaluated in binary64, not in the reals: a square may
    overflow.  The points (2^600, 0) and (0, 0) are 2^600 apart, and
    [calculateDistance] answers [+infinity]. *)
Example calculateDistance_overflow :
  calculateDistance (Vector2D.mk 0x1p+600 0) (Vector2D.mk 0 0) = infinity.
Proof. reflexivity. Qed.

Lemma isFinite_SF n : isFinite n = true -> SF.finite (Prim2SF n) = true.
Proof.
  unfold isFinite, is_finite, is_nan, is_infinity.
  rewrite !FloatAxioms.eqb_spec, FloatAxioms.abs_spec.
  change (Prim2SF infinity) with (S754_infinity false).
  destruct (Prim2SF n) as [s|s| |s m e]; simpl; try reflexivity.
  - destruct s; discriminate.
  - discriminate.
Qed.

Lemma SF_signed_nonNegative n :
  SF.signed false (Prim2SF n) = true -> nonNegative n = true.
Proof.
  unfold nonNegative. rewrite FloatAxioms.leb_spec.
  change (Prim2SF 0) with (S754_zero false).
  destruct (Prim2SF n) as [s|s| |s m e]; simpl; try discriminate;
    destruct s; simpl; (discriminate || reflexivity).
Qed.

Lemma SF_nan_is_nan n : Prim2SF n = S754_nan -> is_nan n = true.
Proof. intros H. unfold is_nan. now rewrite FloatAxioms.eqb_spec, H. Qed.

(** A square, a sum of squares and its root are never negative: what
    [calculateDistance] returns is NaN or at least 0. *)
Lemma calculateDistance_nan_or_nonNegative p q :
  is_nan (calculateDistance p q) || nonNegative (calculateDistance p q) = true.
Proof.
  assert (Hsq : forall a, SFmul prec emax a a = S754_nan
                          \/ SF.signed false (SFmul prec emax a a) = true).
  { intros a. destruct (SF.not_nan a) eqn:Ha.
    - right. now apply SFmul_square_signed.
    - left. now destruct a. }
  pose proof (Prim2SF_calculateDistance p q) as H. cbv zeta in H.
  unfold SF64sqrt, SF64add, SF64mul, SF64sub in H.
  destruct (Hsq (SFsub prec emax (Prim2SF (Vector2D.x p)) (Prim2SF (Vector2D.x q))))
    as [Hx|Hx];
    destruct (Hsq (SFsub prec emax (Prim2SF (Vector2D.y p)) (Prim2SF (Vector2D.y q))))
    as [Hy|Hy].
  1-3: rewrite (SF_nan_is_nan _); [reflexivity|rewrite H].
  - now rewrite Hx.
  - rewrite Hx. reflexivity.
  - rewrite Hy. now destruct (SFmul _ _ _ _).
  - rewrite (SF_signed_nonNegative _); [apply orb_true_r|].
    rewrite H. now apply SFsqrt_signed, SFadd_signed.
Qed.

(** With finite coordinates the differences are not NaN, so neither is the
    result (it may be [+infinity], by overflow). *)
Lemma calculateDistance_finite_nonNegative p q :
  isFinite (Vector2D.x p) = true -> isFinite (Vector2D.y p) = true ->
  isFinite (Vector2D.x q) = true -> isFinite (Vector2D.y q) = true ->
  nonNegative (calculateDistance p q) = true.
Proof.
  intros Hpx Hpy Hqx Hqy.
  apply SF_signed_nonNegative. rewrite Prim2SF_calculateDistance. cbv zeta.
  unfold SF64sqrt, SF64add, SF64mul, SF64sub.
  apply SFsqrt_signed, SFadd_signed;
    apply SFmul_square_signed, SFsub_finite_not_nan; now apply isFinite_SF.
Qed.

(** ** [find] by part name *)

Section Find.
Variable name : string.

Let named (k : Keypoint.t) : bool := Keypoint.part k =? name.

Lemma find_first_named kps k :
  find named kps = Some k <-> first_named name kps k.
Proof.
  split.
  - induction kps as [|k0 kps IH]; simpl; [discriminate|].
    destruct (named k0) eqn:Hk0.
    + intros [= ->]. exists [], kps. repeat split.
      * now apply String.eqb_eq.
      * intros ? [].
    + intros H. destruct (IH H) as (pre & post & -> & Hk & Hpre).
      exists (k0 :: pre), post. repeat split; [assumption|].
      intros k' [<-|Hin]; [|now apply Hpre].
      now apply String.eqb_neq.
  - intros (pre & post & -> & Hk & Hpre).
    induction pre as [|k0 pre IH]; simpl.
    + unfold named. apply String.eqb_eq in Hk. now rewrite Hk.
    + assert (Hk0 : named k0 = false)
        by (apply String.eqb_neq, Hpre; now left).
      rewrite Hk0. apply IH. intros k' Hin. apply Hpre. now right.
Qed.

Lemma find_absent kps : find named kps = None <-> absent name kps.
Proof.
  split.
  - intros H k Hin Hk.
    apply (find_none _ _ H) in Hin. unfold named in Hin.
    apply String.eqb_neq in Hin. contradiction.
  - intros H. destruct (find named kps) as [k|] eqn:Hf; [|reflexivity].
    apply find_some in Hf as [Hin Hk].
    apply String.eqb_eq in Hk. now destruct (H k Hin).
Qed.

Lemma present_first_named kps :
  present name kps -> exists k, first_named name kps k.
Proof.
  intros (k & Hin & Hk).
  destruct (find named kps) as [k'|] eqn:Hf.
  - exists k'. now apply find_first_named.
  - apply find_absent in Hf. now destruct (Hf k Hin).
Qed.

End Find.

(** In a set that keeps the invariant, the keypoint of a name is the first
    of that name. *)
Lemma unambiguous_first_named kps k :
  unambiguous kps -> In k kps -> first_named (Keypoint.part k) kps k.
Proof.
  unfold unambiguous. intros Hnd Hin.
  apply in_split in Hin as (pre & post & ->).
  exists pre, post. repeat split.
  intros k' Hk' Heq.
  rewrite map_app in Hnd. simpl in Hnd.
  apply NoDup_remove_2 in Hnd. apply Hnd.
  apply in_or_app. left. rewrite <- Heq. now apply in_map.
Qed.

(** An entry whose name already occurred is never the answer of a lookup. *)
Lemma find_skip_duplicate name pre dup post :
  present (Keypoint.part dup) pre ->
  find (fun k => Keypoint.part k =? name) (pre ++ dup :: post)
  = find (fun k => Keypoint.part k =? name) (pre ++ post).
Proof.
  intros (k0 & Hin & Hk0).
  induction pre as [|k pre IH]; [destruct Hin|].
  simpl. destruct (Keypoint.part k =? name) eqn:Hk; [reflexivity|].
  destruct Hin as [->|Hin]; [|now apply IH].
  clear IH. induction pre as [|k' pre IH]; simpl.
  - rewrite <- Hk0, Hk. reflexivity.
  - destruct (Keypoint.part k' =? name); [reflexivity|apply IH].
Qed.

(** ** The measurements, pair by pair *)

Lemma detectPose_measure_pairs pose :
  detectPose_measure pose
  = Measurements_literal
      (pair_distance "leftShoulder" "rightShoulder" (Pose.keypoints pose))
      (pair_distance "leftHip" "rightHip" (Pose.keypoints pose))
      (pair_distance "nose" "leftAnkle" (Pose.keypoints pose)).
Proof. reflexivity. Qed.

Lemma pair_distance_first_named name1 name2 kps a b :
  first_named name1 kps a -> first_named name2 kps b ->
  pair_distance name1 name2 kps = distance_between a b.
Proof.
  intros Ha Hb. unfold pair_distance.
  apply find_first_named in Ha, Hb. rewrite Ha, Hb.
  apply calculateDistance_euclidean.
Qed.

Lemma pair_distance_absent name1 name2 kps :
  absent name1 kps \/ absent name2 kps ->
  pair_distance name1 name2 kps = 0%float.
Proof.
  unfold pair_distance.
  intros [H|H]; apply find_absent in H; rewrite H; [reflexivity|].
  destruct (find (fun k => Keypoint.part k =? name1) kps); reflexivity.
Qed.

Lemma pair_distance_nan_or_nonNegative name1 name2 kps :
  is_nan (pair_distance name1 name2 kps)
  || nonNegative (pair_distance name1 name2 kps) = true.
Proof.
  unfold pair_distance.
  destruct (find (fun k => Keypoint.part k =? name1) kps) as [a|];
    [destruct (find (fun k => Keypoint.part k =? name2) kps) as [b|]|];
    try reflexivity.
  apply calculateDistance_nan_or_nonNegative.
Qed.

Lemma pair_distance_finite_nonNegative name1 name2 kps :
  Forall (fun k => finite_position k = true) kps ->
  nonNegative (pair_distance name1 name2 kps) = true.
Proof.
  intros Hfin. unfold pair_distance. rewrite List.Forall_forall in Hfin.
  destruct (find (fun k => Keypoint.part k =? name1) kps) as [a|] eqn:Ha;
    [|reflexivity].
  destruct (find (fun k => Keypoint.part k =? name2) kps) as [b|] eqn:Hb;
    [|reflexivity].
  apply find_some in Ha as [Ha _], Hb as [Hb _].
  apply Hfin in Ha, Hb. unfold finite_position in Ha, Hb.
  apply andb_true_iff in Ha as [? ?], Hb as [? ?].
  now apply calculateDistance_finite_nonNegative.
Qed.

Lemma pair_distance_skip_duplicate name1 name2 pre dup post :
  present (Keypoint.part dup) pre ->
  pair_distance name1 name2 (pre ++ dup :: post)
  = pair_distance name1 name2 (pre ++ post).
Proof.
  intros H. unfold pair_distance.
  now rewrite !(find_skip_duplicate _ pre dup post H).
Qed.

(** Example 2 of the specification: with only the nose and the left ankle
    the two widths are 0 and the height is their distance. *)
Example example2_measurements :
  detectPose_measure (pose_of example2)
  = {[ "shoulderWidth" := VNumber 0%float;
       "hipWidth" := VNumber 0%float;
       "height" := VNumber 600%float ]}.
Proof. reflexivity. Qed.

(** ** How [detectPose] settles *)

Section Settle.
Context {W E Video : Type}.
Variables (video : Video) (net : PoseNet W E Video).

Lemma detectPose_pose w w' pose :
  estimateSinglePose net video {| flipHorizontal := false |} w
  = (Fulfilled (Some pose), w') ->
  detectPose video net w = (Fulfilled (detectPose_measure pose), w').
Proof. intros H. unfold detectPose, try_catch, await. now rewrite H. Qed.

Lemma detectPose_no_pose w w' :
  estimateSinglePose net video {| flipHorizontal := false |} w
  = (Fulfilled None, w') ->
  detectPose video net w
  = (Fulfilled (ErrorResult_literal
                  "Pose estimation failed. Could not detect key points."), w').
Proof. intros H. unfold detectPose, try_catch, await. now rewrite H. Qed.

Lemma detectPose_rejected w w' e :
  estimateSinglePose net video {| flipHorizontal := false |} w
  = (Rejected e, w') ->
  detectPose video net w
  = (Fulfilled (ErrorResult_literal
                  "An error occurred during pose detection. Please try again."), w').
Proof. intros H. unfold detectPose, try_catch, await. now rewrite H. Qed.
End Settle.

(** * The claims of the specification *)

(** Proves [present name l] for a concrete list [l] by trying its elements
    in turn. *)
Ltac present_in l :=
  lazymatch l with
  | ?k :: ?l' =>
      first [ exists k; split; [simpl; tauto | reflexivity] | present_in l' ]
  end.

Ltac present_among kps :=
  let l := eval unfold kps in kps in present_in l.

(** C1.  When both keypoints of a required pair are present in the set,
    the component of the record that [detectPose] returns is the planar
    Euclidean distance sqrt((x1-x2)^2 + (y1-y2)^2), evaluated in binary64 on
    the pixel coordinates as they are (no unit conversion), between the
    positions of the two keypoints.  The two keypoints are the first of
    their names; by [unambiguous_first_named] they are the only ones in a
    set that keeps the invariant. *)
Theorem measurement_is_euclidean_distance {W E Video}
    (video : Video) (net : PoseNet W E Video) (w w' : W) (pose : Pose.t) :
  estimateSinglePose net video {| flipHorizontal := false |} w
  = (Fulfilled (Some pose), w') ->
  exists o : object,
    detectPose video net w = (Fulfilled o, w')
    /\ (present "leftShoulder" (Pose.keypoints pose) ->
        present "rightShoulder" (Pose.keypoints pose) ->
        exists a b,
          first_named "leftShoulder" (Pose.keypoints pose) a
          /\ first_named "rightShoulder" (Pose.keypoints pose) b
          /\ o !! "shoulderWidth" = Some (VNumber (distance_between a b)))
    /\ (present "leftHip" (Pose.keypoints pose) ->
        present "rightHip" (Pose.keypoints pose) ->
        exists a b,
          first_named "leftHip" (Pose.keypoints pose) a
          /\ first_named "rightHip" (Pose.keypoints pose) b
          /\ o !! "hipWidth" = Some (VNumber (distance_between a b)))
    /\ (present "nose" (Pose.keypoints pose) ->
        present "leftAnkle" (Pose.keypoints pose) ->
        exists a b,
          first_named "nose" (Pose.keypoints pose) a
          /\ first_named "leftAnkle" (Pose.keypoints pose) b
          /\ o !! "height" = Some (VNumber (distance_between a b))).
Proof.
  intros Hest. exists (detectPose_measure pose).
  split; [now apply detectPose_pose|].
  rewrite detectPose_measure_pairs.
  repeat split; intros H1 H2;
    apply present_first_named in H1 as [a Ha], H2 as [b Hb];
    exists a, b; (split; [exact Ha|split; [exact Hb|]]);
    rewrite <- (pair_distance_first_named _ _ _ a b Ha Hb); reflexivity.
Qed.

Lemma measurement_is_euclidean_distance_witness :
  exists o : object,
    detectPose tt (countingNet (Fulfilled (Some (pose_of example1)))) 0
    = (Fulfilled o, 1)
    /\ (exists a b,
          first_named "leftShoulder" example1 a
          /\ first_named "rightShoulder" example1 b
          /\ o !! "shoulderWidth" = Some (VNumber (distance_between a b)))
    /\ (exists a b,
          first_named "leftHip" example1 a
          /\ first_named "rightHip" example1 b
          /\ o !! "hipWidth" = Some (VNumber (distance_between a b)))
    /\ (exists a b,
          first_named "nose" example1 a
          /\ first_named "leftAnkle" example1 b
          /\ o !! "height" = Some (VNumber (distance_between a b))).
Proof.
  destruct (measurement_is_euclidean_distance
              tt (countingNet (Fulfilled (Some (pose_of example1)))) 0 1
              (pose_of example1) eq_refl)
    as (o & Hd & Hs & Hh & Hn).
  exists o. split; [exact Hd|].
  split; [apply Hs|split; [apply Hh|apply Hn]]; present_among example1.
Defined.

(** C2.  When one or both keypoints of a pair are missing, [detectPose]
    still fulfils with a [Measurements] record (no failure marker), and the
    component of that pair is exactly 0. *)
Theorem missing_keypoint_gives_zero {W E Video}
    (video : Video) (net : PoseNet W E Video) (w w' : W) (pose : Pose.t) :
  estimateSinglePose net video {| flipHorizontal := false |} w
  = (Fulfilled (Some pose), w') ->
  exists o : object,
    detectPose video net w = (Fulfilled o, w')
    /\ isMeasurements o = true
    /\ isErrorResult o = false
    /\ hasFailureMarker o = false
    /\ (absent "leftShoulder" (Pose.keypoints pose)
        \/ absent "rightShoulder" (Pose.keypoints pose) ->
        o !! "shoulderWidth" = Some (VNumber 0%float))
    /\ (absent "leftHip" (Pose.keypoints pose)
        \/ absent "rightHip" (Pose.keypoints pose) ->
        o !! "hipWidth" = Some (VNumber 0%float))
    /\ (absent "nose" (Pose.keypoints pose)
        \/ absent "leftAnkle" (Pose.keypoints pose) ->
        o !! "height" = Some (VNumber 0%float)).
Proof.
  intros Hest. exists (detectPose_measure pose).
  split; [now apply detectPose_pose|].
  rewrite detectPose_measure_pairs.
  repeat split; intros H;
    rewrite <- (pair_distance_absent _ _ _ H); reflexivity.
Qed.

Lemma missing_keypoint_gives_zero_witness :
  exists o : object,
    detectPose tt (countingNet (Fulfilled (Some (pose_of example2)))) 0
    = (Fulfilled o, 1)
    /\ isMeasurements o = true
    /\ isErrorResult o = false
    /\ hasFailureMarker o = false
    /\ o !! "shoulderWidth" = Some (VNumber 0%float)
    /\ o !! "hipWidth" = Some (VNumber 0%float).
Proof.
  destruct (missing_keypoint_gives_zero
              tt (countingNet (Fulfilled (Some (pose_of example2)))) 0 1
              (pose_of example2) eq_refl)
    as (o & Hd & Hm & He & Hf & Hs & Hh & _).
  exists o. repeat (split; [assumption|]).
  split; [apply Hs|apply Hh]; left; intros k Hin Hk; simpl in Hin;
    (destruct Hin as [<-|[<-|[]]]; discriminate Hk).
Defined.

(** C3.  When the estimator fulfils with no pose, [detectPose] fulfils with
    the failure object whose message is "Pose estimation failed. Could not
    detect key points."; that object carries none of the three measurement
    components. *)
Theorem no_pose_gives_failure {W E Video}
    (video : Video) (net : PoseNet W E Video) (w w' : W) :
  estimateSinglePose net video {| flipHorizontal := false |} w
  = (Fulfilled None, w') ->
  exists o : object,
    detectPose video net w = (Fulfilled o, w')
    /\ o = {[ "success" := VBoolean false;
              "message" :=
                VString "Pose estimation failed. Could not detect key points." ]}
    /\ isErrorResult o = true
    /\ hasFailureMarker o = true
    /\ isMeasurements o = false
    /\ o !! "shoulderWidth" = None
    /\ o !! "hipWidth" = None
    /\ o !! "height" = None.
Proof.
  intros Hest. eexists. split; [now apply detectPose_no_pose|].
  repeat split.
Qed.

Lemma no_pose_gives_failure_witness :
  exists o : object,
    detectPose tt (countingNet (Fulfilled None)) 0 = (Fulfilled o, 1)
    /\ o !! "message"
       = Some (VString "Pose estimation failed. Could not detect key points.")
    /\ isMeasurements o = false.
Proof.
  destruct (no_pose_gives_failure tt (countingNet (Fulfilled None)) 0 1 eq_refl)
    as (o & Hd & -> & _ & _ & Hm & _).
  eexists. split; [exact Hd|]. split; [reflexivity|exact Hm].
Defined.

(** C4.  Example 1.  For the keypoint set that holds leftShoulder at (0,0),
    rightShoulder at (300,0), leftHip at (50,200), rightHip at (300,200),
    nose at (150,0) and leftAnkle at (150,600), [detectPose] fulfils with
    [{ shoulderWidth: 300, hipWidth: 250, height: 600 }].  The set is taken
    with its invariant (one keypoint per name), in any order and with any
    scores. *)
Theorem example1_measurements {W E Video}
    (video : Video) (net : PoseNet W E Video) (w w' : W) (pose : Pose.t) :
  estimateSinglePose net video {| flipHorizontal := false |} w
  = (Fulfilled (Some pose), w') ->
  unambiguous (Pose.keypoints pose) ->
  keypoint_at (Pose.keypoints pose) "leftShoulder" 0 0 ->
  keypoint_at (Pose.keypoints pose) "rightShoulder" 300 0 ->
  keypoint_at (Pose.keypoints pose) "leftHip" 50 200 ->
  keypoint_at (Pose.keypoints pose) "rightHip" 300 200 ->
  keypoint_at (Pose.keypoints pose) "nose" 150 0 ->
  keypoint_at (Pose.keypoints pose) "leftAnkle" 150 600 ->
  detectPose video net w
  = (Fulfilled {[ "shoulderWidth" := VNumber 300%float;
                  "hipWidth" := VNumber 250%float;
                  "height" := VNumber 600%float ]}, w').
Proof.
  intros Hest Hu (ls & Hls & Nls & Pls) (rs & Hrs & Nrs & Prs)
         (lh & Hlh & Nlh & Plh) (rh & Hrh & Nrh & Prh)
         (no & Hno & Nno & Pno) (la & Hla & Nla & Pla).
  rewrite (detectPose_pose _ _ _ _ _ Hest), detectPose_measure_pairs.
  assert (F : forall k name, In k (Pose.keypoints pose) ->
                             Keypoint.part k = name ->
                             first_named name (Pose.keypoints pose) k).
  { intros k name Hin <-. now apply unambiguous_first_named. }
  rewrite (pair_distance_first_named _ _ _ ls rs),
          (pair_distance_first_named _ _ _ lh rh),
          (pair_distance_first_named _ _ _ no la) by now apply F.
  unfold distance_between.
  rewrite Pls, Prs, Plh, Prh, Pno, Pla. reflexivity.
Qed.

Lemma example1_measurements_witness :
  detectPose tt (countingNet (Fulfilled (Some (pose_of example1)))) 0
  = (Fulfilled {[ "shoulderWidth" := VNumber 300%float;
                  "hipWidth" := VNumber 250%float;
                  "height" := VNumber 600%float ]}, 1).
Proof.
  apply (example1_measurements
           tt (countingNet (Fulfilled (Some (pose_of example1)))) 0 1
           (pose_of example1) eq_refl).
  - repeat constructor; simpl; intuition discriminate.
  - exists (keypoint "leftShoulder" 0 0). simpl. tauto.
  - exists (keypoint "rightShoulder" 300 0). simpl. tauto.
  - exists (keypoint "leftHip" 50 200). simpl. tauto.
  - exists (keypoint "rightHip" 300 200). simpl. tauto.
  - exists (keypoint "nose" 150 0). simpl. tauto.
  - exists (keypoint "leftAnkle" 150 600). simpl. tauto.
Defined.

(** C5.  Every invocation fulfils with an object that is exactly one of the
    two variants: it has the shape of [Measurements] or the shape of
    [ErrorResult], never both; the failure marker ['success' in r &&
    !r.success] tells them apart, and a [Measurements] result has no
    [success] property at all. *)
Theorem outcome_is_exactly_one_variant {W E Video}
    (video : Video) (net : PoseNet W E Video) (w : W) :
  exists (o : object) (w' : W),
    detectPose video net w = (Fulfilled o, w')
    /\ xorb (isMeasurements o) (isErrorResult o) = true
    /\ hasFailureMarker o = isErrorResult o
    /\ o !! "success"
       = (if isMeasurements o then None else Some (VBoolean false)).
Proof.
  destruct (estimateSinglePose net video {| flipHorizontal := false |} w)
    as [[[pose|]|e] w'] eqn:Hest; eexists; exists w'.
  - split; [apply detectPose_pose; exact Hest|].
    rewrite detectPose_measure_pairs. repeat split.
  - split; [apply detectPose_no_pose; exact Hest|]. repeat split.
  - split; [apply (detectPose_rejected _ _ _ _ e); exact Hest|]. repeat split.
Qed.

(** C6.  [detectPose] never rejects.  Whatever the estimator does, the
    promise is fulfilled: a rejection of the estimator (a runtime exception)
    and a missing pose are both turned into an object of the shape
    [{ success: false, message: string }]. *)
Theorem detectPose_never_rejects {W E Video}
    (video : Video) (net : PoseNet W E Video) (w : W) :
  (exists (o : object) (w' : W), detectPose video net w = (Fulfilled o, w'))
  /\ match estimateSinglePose net video {| flipHorizontal := false |} w with
     | (Rejected _, w') =>
         exists message,
           detectPose video net w
           = (Fulfilled {[ "success" := VBoolean false;
                           "message" := VString message ]}, w')
           /\ message
              = "An error occurred during pose detection. Please try again."
     | (Fulfilled None, w') =>
         exists message,
           detectPose video net w
           = (Fulfilled {[ "success" := VBoolean false;
                           "message" := VString message ]}, w')
           /\ message = "Pose estimation failed. Could not detect key points."
     | (Fulfilled (Some pose), w') =>
         detectPose video net w = (Fulfilled (detectPose_measure pose), w')
     end.
Proof.
  destruct (estimateSinglePose net video {| flipHorizontal := false |} w)
    as [[[pose|]|e] w'] eqn:Hest.
  - pose proof (detectPose_pose _ _ _ _ _ Hest) as H. eauto.
  - pose proof (detectPose_no_pose _ _ _ _ Hest) as H.
    split; [eauto|]. eexists. split; [exact H|reflexivity].
  - pose proof (detectPose_rejected _ _ _ _ _ Hest) as H.
    split; [eauto|]. eexists. split; [exact H|reflexivity].
Qed.

(** C7, as stated, fails: a keypoint whose coordinate is NaN makes the
    component NaN, and NaN is not at least 0. *)
Lemma nan_coordinate_gives_nan_component :
  detectPose tt (countingNet (Fulfilled (Some (pose_of example_nan)))) 0
  = (Fulfilled {[ "shoulderWidth" := VNumber nan;
                  "hipWidth" := VNumber 0%float;
                  "height" := VNumber 0%float ]}, 1)
  /\ isMeasurements {[ "shoulderWidth" := VNumber nan;
                       "hipWidth" := VNumber 0%float;
                       "height" := VNumber 0%float ]} = true
  /\ nonNegative nan = false.
Proof. repeat split. Qed.

(** C7, amended.  On every keypoint set on which [detectPose] succeeds,
    each of the three components is NaN or at least 0, never negative; when
    the coordinates of the keypoints are finite numbers, all three are at
    least 0. *)
Theorem components_nonnegative_unless_nan {W E Video}
    (video : Video) (net : PoseNet W E Video) (w w' : W) (pose : Pose.t) :
  estimateSinglePose net video {| flipHorizontal := false |} w
  = (Fulfilled (Some pose), w') ->
  exists shoulderWidth hipWidth height : number,
    detectPose video net w
    = (Fulfilled {[ "shoulderWidth" := VNumber shoulderWidth;
                    "hipWidth" := VNumber hipWidth;
                    "height" := VNumber height ]}, w')
    /\ is_nan shoulderWidth || nonNegative shoulderWidth = true
    /\ is_nan hipWidth || nonNegative hipWidth = true
    /\ is_nan height || nonNegative height = true
    /\ (Forall (fun k => finite_position k = true) (Pose.keypoints pose) ->
        nonNegative shoulderWidth = true
        /\ nonNegative hipWidth = true
        /\ nonNegative height = true).
Proof.
  intros Hest.
  exists (pair_distance "leftShoulder" "rightShoulder" (Pose.keypoints pose)),
         (pair_distance "leftHip" "rightHip" (Pose.keypoints pose)),
         (pair_distance "nose" "leftAnkle" (Pose.keypoints pose)).
  split; [now apply detectPose_pose|].
  repeat split;
    solve [ apply pair_distance_nan_or_nonNegative
          | now apply pair_distance_finite_nonNegative ].
Qed.

Lemma components_nonnegative_unless_nan_witness :
  exists shoulderWidth hipWidth height : number,
    detectPose tt (countingNet (Fulfilled (Some (pose_of example1)))) 0
    = (Fulfilled {[ "shoulderWidth" := VNumber shoulderWidth;
                    "hipWidth" := VNumber hipWidth;
                    "height" := VNumber height ]}, 1)
    /\ nonNegative shoulderWidth = true
    /\ nonNegative hipWidth = true
    /\ nonNegative height = true.
Proof.
  destruct (components_nonnegative_unless_nan
              tt (countingNet (Fulfilled (Some (pose_of example1)))) 0 1
              (pose_of example1) eq_refl)
    as (s & h & t & Hd & _ & _ & _ & Hfin).
  exists s, h, t. split; [exact Hd|].
  apply Hfin. repeat constructor.
Defined.

(** C8.  The record is a function of the keypoint set alone.  Two
    invocations, on any videos, models and states, in which the estimator
    yields the same keypoints fulfil with identical records, and each leaves
    the state exactly as its estimator left it: [detectPose] adds no effect
    of its own and keeps no state between calls. *)
Theorem same_keypoints_same_measurements {W1 E1 Video1 W2 E2 Video2}
    (video1 : Video1) (net1 : PoseNet W1 E1 Video1) (w1 w1' : W1)
    (video2 : Video2) (net2 : PoseNet W2 E2 Video2) (w2 w2' : W2)
    (pose1 pose2 : Pose.t) :
  estimateSinglePose net1 video1 {| flipHorizontal := false |} w1
  = (Fulfilled (Some pose1), w1') ->
  estimateSinglePose net2 video2 {| flipHorizontal := false |} w2
  = (Fulfilled (Some pose2), w2') ->
  Pose.keypoints pose1 = Pose.keypoints pose2 ->
  exists o : object,
    isMeasurements o = true
    /\ detectPose video1 net1 w1 = (Fulfilled o, w1')
    /\ detectPose video2 net2 w2 = (Fulfilled o, w2').
Proof.
  intros H1 H2 Hk. exists (detectPose_measure pose1).
  split; [reflexivity|]. split; [now apply detectPose_pose|].
  rewrite (detectPose_pose _ _ _ _ _ H2), !detectPose_measure_pairs, Hk.
  reflexivity.
Qed.

Lemma same_keypoints_same_measurements_witness :
  exists o : object,
    isMeasurements o = true
    /\ detectPose tt (countingNet (Fulfilled (Some (pose_of example1)))) 0
       = (Fulfilled o, 1)
    /\ detectPose tt (countingNet (Fulfilled (Some (Pose.mk example1 0.25%float)))) 7
       = (Fulfilled o, 8).
Proof.
  apply (same_keypoints_same_measurements
           tt (countingNet (Fulfilled (Some (pose_of example1)))) 0 1
           tt (countingNet (Fulfilled (Some (Pose.mk example1 0.25%float)))) 7 8
           (pose_of example1) (Pose.mk example1 0.25%float));
    reflexivity.
Defined.

(** C9.  [calculateDistance] is symmetric: swapping the two positions gives
    the same binary64 value.  (When that value is NaN the two sides are the
    same NaN; IEEE comparison [==] then answers false, as it does for any
    NaN against itself, and answers true in every other case.) *)
Theorem calculateDistance_symmetric (A B : Vector2D.t) :
  calculateDistance A B = calculateDistance B A
  /\ (calculateDistance A B =? calculateDistance B A)%float
     = negb (is_nan (calculateDistance A B)).
Proof.
  assert (H : calculateDistance A B = calculateDistance B A).
  { apply Prim2SF_inj. rewrite !Prim2SF_calculateDistance. cbv zeta.
    unfold SF64sqrt, SF64add, SF64mul, SF64sub.
    f_equal. f_equal; apply SFmul_square_same_abs, SFsub_swap_same_abs. }
  split; [exact H|].
  rewrite <- H. unfold is_nan. now rewrite negb_involutive.
Qed.

(** C10.  Lookups are first-match-wins.  On a keypoint array in which a
    name occurs again after its first entry, each component that
    [detectPose] returns is computed from the first entry of each name of
    its pair, in the order of the array; the later entry is never the one a
    lookup resolves to, and dropping it from the array leaves the returned
    record unchanged. *)
Theorem first_match_wins {W E Video}
    (video : Video) (net1 net2 : PoseNet W E Video) (w1 w1' w2 w2' : W)
    (pose1 pose2 : Pose.t) (pre post : list Keypoint.t) (dup : Keypoint.t) :
  estimateSinglePose net1 video {| flipHorizontal := false |} w1
  = (Fulfilled (Some pose1), w1') ->
  estimateSinglePose net2 video {| flipHorizontal := false |} w2
  = (Fulfilled (Some pose2), w2') ->
  Pose.keypoints pose1 = (pre ++ dup :: post)%list ->
  Pose.keypoints pose2 = (pre ++ post)%list ->
  present (Keypoint.part dup) pre ->
  exists o : object,
    detectPose video net1 w1 = (Fulfilled o, w1')
    /\ detectPose video net2 w2 = (Fulfilled o, w2')
    /\ (forall a b,
          first_named "leftShoulder" (Pose.keypoints pose1) a ->
          first_named "rightShoulder" (Pose.keypoints pose1) b ->
          o !! "shoulderWidth" = Some (VNumber (distance_between a b)))
    /\ (forall a b,
          first_named "leftHip" (Pose.keypoints pose1) a ->
          first_named "rightHip" (Pose.keypoints pose1) b ->
          o !! "hipWidth" = Some (VNumber (distance_between a b)))
    /\ (forall a b,
          first_named "nose" (Pose.keypoints pose1) a ->
          first_named "leftAnkle" (Pose.keypoints pose1) b ->
          o !! "height" = Some (VNumber (distance_between a b)))
    /\ (forall name k,
          first_named name (Pose.keypoints pose1) k
          <-> first_named name (Pose.keypoints pose2) k)
    /\ (forall k,
          first_named (Keypoint.part dup) (Pose.keypoints pose1) k -> In k pre).
Proof.
  intros H1 H2 K1 K2 Hdup.
  exists (detectPose_measure pose1).
  split; [now apply detectPose_pose|].
  split.
  { rewrite (detectPose_pose _ _ _ _ _ H2), !detectPose_measure_pairs, K1, K2.
    now rewrite !(pair_distance_skip_duplicate _ _ pre dup post Hdup). }
  rewrite detectPose_measure_pairs.
  assert (Hsame : forall name k,
             first_named name (Pose.keypoints pose1) k
             <-> first_named name (Pose.keypoints pose2) k).
  { intros name k. rewrite K1, K2, <- !find_first_named.
    now rewrite (find_skip_duplicate name pre dup post Hdup). }
  repeat split;
    try (intros a b Ha Hb;
         rewrite <- (pair_distance_first_named _ _ _ a b Ha Hb); reflexivity);
    try (now apply Hsame).
  intros k Hk. apply Hsame in Hk. rewrite K2 in Hk.
  apply find_first_named in Hk.
  destruct Hdup as (k0 & Hin0 & Hk0).
  destruct (find (fun k => Keypoint.part k =? Keypoint.part dup) pre)
    as [k'|] eqn:Hpre.
  - assert (Hfind : find (fun k => Keypoint.part k =? Keypoint.part dup)
                      (pre ++ post) = Some k').
    { clear - Hpre. induction pre as [|x pre IH]; [discriminate|].
      simpl in *. destruct (Keypoint.part x =? Keypoint.part dup);
        [exact Hpre|now apply IH]. }
    rewrite Hfind in Hk. injection Hk as <-.
    now apply find_some in Hpre.
  - apply find_absent in Hpre. now destruct (Hpre k0 Hin0).
Qed.

Lemma first_match_wins_witness :
  exists o : object,
    detectPose tt (countingNet (Fulfilled (Some (pose_of example1_dup)))) 0
    = (Fulfilled o, 1)
    /\ detectPose tt (countingNet (Fulfilled (Some (pose_of example1)))) 0
       = (Fulfilled o, 1)
    /\ o !! "shoulderWidth" = Some (VNumber 300%float).
Proof.
  assert (Hdup : present (Keypoint.part (keypoint "leftShoulder" 7 7))
                   [ keypoint "leftShoulder" 0 0; keypoint "rightShoulder" 300 0 ]).
  { exists (keypoint "leftShoulder" 0 0). simpl. tauto. }
  destruct (first_match_wins
              tt (countingNet (Fulfilled (Some (pose_of example1_dup))))
              (countingNet (Fulfilled (Some (pose_of example1)))) 0 1 0 1
              (pose_of example1_dup) (pose_of example1)
              [ keypoint "leftShoulder" 0 0; keypoint "rightShoulder" 300 0 ]
              [ keypoint "leftHip" 50 200; keypoint "rightHip" 300 200;
                keypoint "nose" 150 0; keypoint "leftAnkle" 150 600 ]
              (keypoint "leftShoulder" 7 7)
              eq_refl eq_refl eq_refl eq_refl Hdup)
    as (o & R1 & R2 & Hs & _).
  exists o. split; [exact R1|]. split; [exact R2|].
  apply (Hs (keypoint "leftShoulder" 0 0) (keypoint "rightShoulder" 300 0)).
  - exists [], (tl example1_dup). repeat split. intros ? [].
  - exists [keypoint "leftShoulder" 0 0], (tl (tl example1_dup)).
    repeat split. intros k [<-|[]]. discriminate.
Defined.

(** * Further properties of the code *)

(** ** More on binary64 *)

Lemma SFeqb_diag a : SFeqb a a = SF.not_nan a.
Proof.
  destruct a as [s|s| |s m e]; try reflexivity.
  - now destruct s.
  - unfold SFeqb, SFcompare.
    rewrite Z.compare_refl, Pos.compare_cont_refl. now destruct s.
Qed.

Lemma SF_signed_not_nan s a : SF.signed s a = true -> SF.not_nan a = true.
Proof. now destruct a. Qed.

Lemma SF_not_nan_false a : SF.not_nan a = false -> a = S754_nan.
Proof. now destruct a. Qed.

(** [a - a] is [+0] for a finite [a], and NaN for an infinity or NaN. *)
Lemma SFsub_diag prec emax a :
  SFsub prec emax a a = if SF.finite a then S754_zero false else S754_nan.
Proof.
  destruct a as [s|s| |s m e]; try reflexivity; try (now destruct s).
  unfold SFsub. set (A := cond_Zopp s _).
  replace (IntDef.Z.sub A A) with 0%Z by (symmetry; apply Z.sub_diag).
  reflexivity.
Qed.

Lemma is_nan_SF n : is_nan n = negb (SF.not_nan (Prim2SF n)).
Proof. unfold is_nan. now rewrite FloatAxioms.eqb_spec, SFeqb_diag. Qed.

Lemma isFinite_SF_eq n : isFinite n = SF.finite (Prim2SF n).
Proof.
  unfold isFinite, is_finite, is_infinity.
  rewrite is_nan_SF, FloatAxioms.eqb_spec, FloatAxioms.abs_spec.
  change (Prim2SF infinity) with (S754_infinity false).
  destruct (Prim2SF n) as [s|s| |s m e]; try reflexivity.
Qed.

Lemma is_nan_eq n : is_nan n = true -> n = nan.
Proof.
  rewrite is_nan_SF. intros H. apply Prim2SF_inj.
  change (Prim2SF nan) with S754_nan.
  apply SF_not_nan_false. now destruct (SF.not_nan (Prim2SF n)).
Qed.

(** A difference with a NaN operand is NaN. *)
Lemma is_nan_sub a b : is_nan a || is_nan b = true -> is_nan (a - b) = true.
Proof.
  rewrite !is_nan_SF, FloatAxioms.sub_spec. unfold SF64sub.
  destruct (Prim2SF a) as [sa|sa| |sa ma ea]; simpl; try reflexivity;
    destruct (Prim2SF b) as [sb|sb| |sb mb eb]; simpl;
    try reflexivity; discriminate.
Qed.

Lemma calculateDistance_swap p q : calculateDistance p q = calculateDistance q p.
Proof.
  apply Prim2SF_inj. rewrite !Prim2SF_calculateDistance. cbv zeta.
  unfold SF64sqrt, SF64add, SF64mul, SF64sub.
  f_equal. f_equal; apply SFmul_square_same_abs, SFsub_swap_same_abs.
Qed.

Lemma is_nan_calculateDistance p q :
  is_nan (calculateDistance p q)
  = is_nan (Vector2D.x p - Vector2D.x q) || is_nan (Vector2D.y p - Vector2D.y q).
Proof.
  rewrite !is_nan_SF, Prim2SF_calculateDistance, !FloatAxioms.sub_spec.
  cbv zeta. unfold SF64sqrt, SF64add, SF64mul, SF64sub.
  set (dx := SFsub prec emax _ _). set (dy := SFsub prec emax _ _).
  destruct (SF.not_nan dx) eqn:Hx; destruct (SF.not_nan dy) eqn:Hy; simpl.
  - rewrite (SF_signed_not_nan false); [reflexivity|].
    now apply SFsqrt_signed, SFadd_signed; apply SFmul_square_signed.
  - apply SF_not_nan_false in Hy. rewrite Hy. simpl.
    now destruct (SFmul prec emax dx dx).
  - apply SF_not_nan_false in Hx. now rewrite Hx.
  - apply SF_not_nan_false in Hx. now rewrite Hx.
Qed.


(** X2.  The distance from a position to itself is 0 when both its
    coordinates are finite, and NaN otherwise. *)
Theorem calculateDistance_self (p : Vector2D.t) :
  calculateDistance p p
  = if isFinite (Vector2D.x p) && isFinite (Vector2D.y p) then 0%float else nan.
Proof.
  apply Prim2SF_inj. rewrite Prim2SF_calculateDistance, !isFinite_SF_eq.
  cbv zeta. unfold SF64sqrt, SF64add, SF64mul, SF64sub.
  rewrite !SFsub_diag.
  destruct (SF.finite (Prim2SF (Vector2D.x p)));
    destruct (SF.finite (Prim2SF (Vector2D.y p))); reflexivity.
Qed.

Lemma is_infinity_SF n : is_infinity n = SF_infinite (Prim2SF n).
Proof.
  unfold is_infinity. rewrite FloatAxioms.eqb_spec, FloatAxioms.abs_spec.
  change (Prim2SF infinity) with (S754_infinity false).
  now destruct (Prim2SF n) as [s|s| |s m e].
Qed.

Lemma SFmul_square_infinite a :
  SF_infinite a = true -> SFmul prec emax a a = S754_infinity false.
Proof. destruct a as [s|s| |s m e]; try discriminate. now destruct s. Qed.

Lemma SFadd_infinity_l a :
  SF.signed false a = true ->
  SFadd prec emax (S754_infinity false) a = S754_infinity false.
Proof. destruct a as [s|s| |s m e]; try discriminate; now destruct s. Qed.

Lemma SFadd_infinity_r a :
  SF.signed false a = true ->
  SFadd prec emax a (S754_infinity false) = S754_infinity false.
Proof. destruct a as [s|s| |s m e]; try discriminate; now destruct s. Qed.

(** X9.  When a coordinate difference is infinite and neither difference is
    NaN, [calculateDistance] answers [+infinity]. *)
Theorem calculateDistance_infinite (p q : Vector2D.t) :
  is_infinity (Vector2D.x p - Vector2D.x q)
  || is_infinity (Vector2D.y p - Vector2D.y q) = true ->
  is_nan (Vector2D.x p - Vector2D.x q)
  || is_nan (Vector2D.y p - Vector2D.y q) = false ->
  calculateDistance p q = infinity.
Proof.
  rewrite !is_infinity_SF, !is_nan_SF, !FloatAxioms.sub_spec.
  intros Hinf Hnan. apply Prim2SF_inj.
  rewrite Prim2SF_calculateDistance. cbv zeta.
  unfold SF64sqrt, SF64add, SF64mul, SF64sub in *.
  change (Prim2SF infinity) with (S754_infinity false).
  set (dx := SFsub prec emax (Prim2SF (Vector2D.x p)) (Prim2SF (Vector2D.x q)))
    in *.
  set (dy := SFsub prec emax (Prim2SF (Vector2D.y p)) (Prim2SF (Vector2D.y q)))
    in *.
  apply orb_false_iff in Hnan as [Hx Hy].
  apply negb_false_iff in Hx, Hy.
  pose proof (SFmul_square_signed prec emax dx Hx) as Sx.
  pose proof (SFmul_square_signed prec emax dy Hy) as Sy.
  apply orb_true_iff in Hinf as [H|H];
    rewrite (SFmul_square_infinite _ H) in *.
  - now rewrite SFadd_infinity_l.
  - now rewrite SFadd_infinity_r.
Qed.

Lemma calculateDistance_infinite_witness :
  calculateDistance (Vector2D.mk infinity 3) (Vector2D.mk 1 neg_infinity)
  = infinity.
Proof. apply calculateDistance_infinite; reflexivity. Defined.

(** ** What the lookups read *)

Lemma pair_distance_positions name1 name2 kps :
  pair_distance name1 name2 kps
  = match position_of name1 kps, position_of name2 kps with
    | Some p1, Some p2 => calculateDistance p1 p2
    | _, _ => 0%float
    end.
Proof.
  unfold pair_distance, position_of.
  destruct (find (fun k => Keypoint.part k =? name1) kps);
    destruct (find (fun k => Keypoint.part k =? name2) kps); reflexivity.
Qed.

(** The position used for a name can be read off the names and positions
    of any selection of keypoints that includes that name. *)
Lemma position_of_named_positions names name kps :
  In name names ->
  position_of name kps
  = option_map snd
      (find (fun e => fst e =? name) (named_positions names kps)).
Proof.
  intros Hin. unfold position_of, named_positions.
  induction kps as [|k kps IH]; [reflexivity|].
  simpl. destruct (Keypoint.part k =? name) eqn:Hk.
  - assert (Hsel : existsb (String.eqb (Keypoint.part k)) names = true).
    { apply existsb_exists. exists name. split; [exact Hin|exact Hk]. }
    rewrite Hsel. simpl. now rewrite Hk.
  - destruct (existsb (String.eqb (Keypoint.part k)) names); [|exact IH].
    simpl. now rewrite Hk.
Qed.

Lemma pair_distance_named_positions name1 name2 kps1 kps2 :
  named_positions [name1; name2] kps1 = named_positions [name1; name2] kps2 ->
  pair_distance name1 name2 kps1 = pair_distance name1 name2 kps2.
Proof.
  intros H. rewrite !pair_distance_positions.
  rewrite !(position_of_named_positions [name1; name2]), H by (simpl; tauto).
  reflexivity.
Qed.

(** In a set with one keypoint per name, a lookup finds a keypoint exactly
    when it is in the set under that name. *)
Lemma find_unambiguous name kps k :
  unambiguous kps ->
  find (fun k => Keypoint.part k =? name) kps = Some k
  <-> In k kps /\ Keypoint.part k = name.
Proof.
  intros Hu. split.
  - intros H. apply find_some in H as [Hin Hk].
    split; [exact Hin|now apply String.eqb_eq].
  - intros [Hin <-]. now apply find_first_named, unambiguous_first_named.
Qed.

Lemma find_Permutation name kps1 kps2 :
  Permutation kps1 kps2 -> unambiguous kps1 ->
  find (fun k => Keypoint.part k =? name) kps1
  = find (fun k => Keypoint.part k =? name) kps2.
Proof.
  intros Hp Hu1.
  assert (Hu2 : unambiguous kps2).
  { unfold unambiguous in *.
    eapply Permutation.Permutation_NoDup; [|exact Hu1].
    now apply Permutation.Permutation_map. }
  destruct (find (fun k => Keypoint.part k =? name) kps1) as [k|] eqn:H1.
  - symmetry. apply (find_unambiguous _ _ _ Hu2).
    apply (find_unambiguous _ _ _ Hu1) in H1 as [Hin Hk].
    split; [|exact Hk]. now apply (Permutation.Permutation_in _ Hp).
  - symmetry. apply find_absent. apply find_absent in H1.
    intros k Hin. apply H1.
    now apply (Permutation.Permutation_in _ (Permutation.Permutation_sym Hp)).
Qed.

Lemma pair_distance_Permutation name1 name2 kps1 kps2 :
  Permutation kps1 kps2 -> unambiguous kps1 ->
  pair_distance name1 name2 kps1 = pair_distance name1 name2 kps2.
Proof.
  intros Hp Hu. unfold pair_distance.
  now rewrite !(find_Permutation _ kps1 kps2 Hp Hu).
Qed.

Lemma pair_distance_swapped name1 name2 kps1 kps2 :
  position_of name1 kps1 = position_of name2 kps2 ->
  position_of name2 kps1 = position_of name1 kps2 ->
  pair_distance name1 name2 kps1 = pair_distance name1 name2 kps2.
Proof.
  intros H1 H2. rewrite !pair_distance_positions, H1, H2.
  destruct (position_of name2 kps2) as [p|];
    destruct (position_of name1 kps2) as [q|]; try reflexivity.
  apply calculateDistance_swap.
Qed.

Lemma pair_distance_nan name1 name2 kps a b :
  first_named name1 kps a -> first_named name2 kps b ->
  has_nan_coordinate a || has_nan_coordinate b = true ->
  pair_distance name1 name2 kps = nan.
Proof.
  intros Ha Hb Hnan. unfold pair_distance.
  apply find_first_named in Ha, Hb. rewrite Ha, Hb.
  apply is_nan_eq. rewrite is_nan_calculateDistance.
  unfold has_nan_coordinate in Hnan.
  apply orb_true_iff in Hnan as [H|H]; apply orb_true_iff in H as [H|H];
    apply orb_true_iff; [left|right|left|right];
    apply is_nan_sub; rewrite H; auto using orb_true_r.
Qed.

(** ** Further properties of [detectPose] *)

(** X3.  Each measurement reads only the names and positions of the
    keypoints that carry one of its two names: keypoint scores, the pose
    score and every other keypoint are ignored.  Two poses that agree on
    that part give the same component. *)
Theorem component_reads_its_pair_only {W E Video}
    (video : Video) (net1 net2 : PoseNet W E Video) (w1 w1' w2 w2' : W)
    (pose1 pose2 : Pose.t) :
  estimateSinglePose net1 video {| flipHorizontal := false |} w1
  = (Fulfilled (Some pose1), w1') ->
  estimateSinglePose net2 video {| flipHorizontal := false |} w2
  = (Fulfilled (Some pose2), w2') ->
  exists o1 o2 : object,
    detectPose video net1 w1 = (Fulfilled o1, w1')
    /\ detectPose video net2 w2 = (Fulfilled o2, w2')
    /\ (named_positions ["leftShoulder"; "rightShoulder"] (Pose.keypoints pose1)
        = named_positions ["leftShoulder"; "rightShoulder"] (Pose.keypoints pose2) ->
        o1 !! "shoulderWidth" = o2 !! "shoulderWidth")
    /\ (named_positions ["leftHip"; "rightHip"] (Pose.keypoints pose1)
        = named_positions ["leftHip"; "rightHip"] (Pose.keypoints pose2) ->
        o1 !! "hipWidth" = o2 !! "hipWidth")
    /\ (named_positions ["nose"; "leftAnkle"] (Pose.keypoints pose1)
        = named_positions ["nose"; "leftAnkle"] (Pose.keypoints pose2) ->
        o1 !! "height" = o2 !! "height").
Proof.
  intros H1 H2.
  exists (detectPose_measure pose1), (detectPose_measure pose2).
  split; [now apply detectPose_pose|]. split; [now apply detectPose_pose|].
  rewrite !detectPose_measure_pairs.
  repeat split; intros H;
    apply pair_distance_named_positions in H;
    unfold Measurements_literal; simplify_map_eq; now rewrite H.
Qed.

Lemma component_reads_its_pair_only_witness :
  exists o1 o2 : object,
    detectPose tt (countingNet (Fulfilled (Some (pose_of example1)))) 0
    = (Fulfilled o1, 1)
    /\ detectPose tt
         (countingNet
            (Fulfilled
               (Some (Pose.mk
                        [ Keypoint.mk 0 (Vector2D.mk 9 9) "leftEye";
                          Keypoint.mk 0 (Vector2D.mk 0 0) "leftShoulder";
                          Keypoint.mk 1 (Vector2D.mk 300 0) "rightShoulder";
                          Keypoint.mk 1 (Vector2D.mk 1 2) "leftHip" ]
                        0.25%float)))) 5
       = (Fulfilled o2, 6)
    /\ o1 !! "shoulderWidth" = o2 !! "shoulderWidth".
Proof.
  destruct (component_reads_its_pair_only
              tt (countingNet (Fulfilled (Some (pose_of example1))))
              (countingNet
                 (Fulfilled
                    (Some (Pose.mk
                             [ Keypoint.mk 0 (Vector2D.mk 9 9) "leftEye";
                               Keypoint.mk 0 (Vector2D.mk 0 0) "leftShoulder";
                               Keypoint.mk 1 (Vector2D.mk 300 0) "rightShoulder";
                               Keypoint.mk 1 (Vector2D.mk 1 2) "leftHip" ]
                             0.25%float))))
              0 1 5 6 _ _ eq_refl eq_refl)
    as (o1 & o2 & H1 & H2 & Hs & _).
  exists o1, o2. split; [exact H1|]. split; [exact H2|].
  apply Hs. reflexivity.
Defined.

(** X4.  The order of the keypoints does not matter in a set with one
    keypoint per name: any rearrangement of it gives the same record. *)
Theorem order_is_irrelevant_in_a_set {W E Video}
    (video : Video) (net1 net2 : PoseNet W E Video) (w1 w1' w2 w2' : W)
    (pose1 pose2 : Pose.t) :
  estimateSinglePose net1 video {| flipHorizontal := false |} w1
  = (Fulfilled (Some pose1), w1') ->
  estimateSinglePose net2 video {| flipHorizontal := false |} w2
  = (Fulfilled (Some pose2), w2') ->
  unambiguous (Pose.keypoints pose1) ->
  Permutation (Pose.keypoints pose1) (Pose.keypoints pose2) ->
  exists o : object,
    detectPose video net1 w1 = (Fulfilled o, w1')
    /\ detectPose video net2 w2 = (Fulfilled o, w2').
Proof.
  intros H1 H2 Hu Hp. exists (detectPose_measure pose1).
  split; [now apply detectPose_pose|].
  rewrite (detectPose_pose _ _ _ _ _ H2), !detectPose_measure_pairs.
  now rewrite !(pair_distance_Permutation _ _ _ _ Hp Hu).
Qed.

Lemma order_is_irrelevant_in_a_set_witness :
  exists o : object,
    detectPose tt (countingNet (Fulfilled (Some (pose_of example2)))) 0
    = (Fulfilled o, 1)
    /\ detectPose tt
         (countingNet
            (Fulfilled
               (Some (pose_of [ keypoint "leftAnkle" 150 600;
                                keypoint "nose" 150 0 ])))) 0
       = (Fulfilled o, 1).
Proof.
  apply (order_is_irrelevant_in_a_set
           tt (countingNet (Fulfilled (Some (pose_of example2))))
           (countingNet
              (Fulfilled
                 (Some (pose_of [ keypoint "leftAnkle" 150 600;
                                  keypoint "nose" 150 0 ]))))
           0 1 0 1 _ _ eq_refl eq_refl).
  - repeat constructor; simpl; intuition discriminate.
  - apply perm_swap.
Defined.

(** X5.  The two widths do not depend on which keypoint of a pair carries
    the left label and which the right one: when the left and right
    positions of one pose are the right and left positions of another (a
    missing one on either side being missing on the other), shoulder width
    and hip width agree. *)
Theorem widths_ignore_left_right_labels {W E Video}
    (video : Video) (net1 net2 : PoseNet W E Video) (w1 w1' w2 w2' : W)
    (pose1 pose2 : Pose.t) :
  estimateSinglePose net1 video {| flipHorizontal := false |} w1
  = (Fulfilled (Some pose1), w1') ->
  estimateSinglePose net2 video {| flipHorizontal := false |} w2
  = (Fulfilled (Some pose2), w2') ->
  exists o1 o2 : object,
    detectPose video net1 w1 = (Fulfilled o1, w1')
    /\ detectPose video net2 w2 = (Fulfilled o2, w2')
    /\ (position_of "leftShoulder" (Pose.keypoints pose1)
        = position_of "rightShoulder" (Pose.keypoints pose2) ->
        position_of "rightShoulder" (Pose.keypoints pose1)
        = position_of "leftShoulder" (Pose.keypoints pose2) ->
        o1 !! "shoulderWidth" = o2 !! "shoulderWidth")
    /\ (position_of "leftHip" (Pose.keypoints pose1)
        = position_of "rightHip" (Pose.keypoints pose2) ->
        position_of "rightHip" (Pose.keypoints pose1)
        = position_of "leftHip" (Pose.keypoints pose2) ->
        o1 !! "hipWidth" = o2 !! "hipWidth").
Proof.
  intros H1 H2.
  exists (detectPose_measure pose1), (detectPose_measure pose2).
  split; [now apply detectPose_pose|]. split; [now apply detectPose_pose|].
  rewrite !detectPose_measure_pairs.
  split; intros Ha Hb;
    pose proof (pair_distance_swapped _ _ _ _ Ha Hb) as H;
    unfold Measurements_literal; simplify_map_eq; now rewrite H.
Qed.

Lemma widths_ignore_left_right_labels_witness :
  exists o1 o2 : object,
    detectPose tt (countingNet (Fulfilled (Some (pose_of example1)))) 0
    = (Fulfilled o1, 1)
    /\ detectPose tt
         (countingNet
            (Fulfilled
               (Some (pose_of [ keypoint "rightShoulder" 0 0;
                                keypoint "leftShoulder" 300 0 ])))) 0
       = (Fulfilled o2, 1)
    /\ o1 !! "shoulderWidth" = o2 !! "shoulderWidth".
Proof.
  destruct (widths_ignore_left_right_labels
              tt (countingNet (Fulfilled (Some (pose_of example1))))
              (countingNet
                 (Fulfilled
                    (Some (pose_of [ keypoint "rightShoulder" 0 0;
                                     keypoint "leftShoulder" 300 0 ]))))
              0 1 0 1 _ _ eq_refl eq_refl)
    as (o1 & o2 & H1 & H2 & Hs & _).
  exists o1, o2. split; [exact H1|]. split; [exact H2|].
  apply Hs; reflexivity.
Defined.

(** X6.  A NaN coordinate is passed on silently: when the keypoints used
    for a pair are both found and one of them has a NaN coordinate, the
    component is NaN, and the result is still a [Measurements] record with
    no failure marker. *)
Theorem nan_coordinate_gives_nan_measurement {W E Video}
    (video : Video) (net : PoseNet W E Video) (w w' : W) (pose : Pose.t) :
  estimateSinglePose net video {| flipHorizontal := false |} w
  = (Fulfilled (Some pose), w') ->
  exists o : object,
    detectPose video net w = (Fulfilled o, w')
    /\ isMeasurements o = true
    /\ hasFailureMarker o = false
    /\ (forall a b,
          first_named "leftShoulder" (Pose.keypoints pose) a ->
          first_named "rightShoulder" (Pose.keypoints pose) b ->
          has_nan_coordinate a || has_nan_coordinate b = true ->
          o !! "shoulderWidth" = Some (VNumber nan))
    /\ (forall a b,
          first_named "leftHip" (Pose.keypoints pose) a ->
          first_named "rightHip" (Pose.keypoints pose) b ->
          has_nan_coordinate a || has_nan_coordinate b = true ->
          o !! "hipWidth" = Some (VNumber nan))
    /\ (forall a b,
          first_named "nose" (Pose.keypoints pose) a ->
          first_named "leftAnkle" (Pose.keypoints pose) b ->
          has_nan_coordinate a || has_nan_coordinate b = true ->
          o !! "height" = Some (VNumber nan)).
Proof.
  intros Hest. exists (detectPose_measure pose).
  split; [now apply detectPose_pose|].
  rewrite detectPose_measure_pairs.
  repeat split; intros a b Ha Hb Hnan;
    rewrite <- (pair_distance_nan _ _ _ a b Ha Hb Hnan); reflexivity.
Qed.

Lemma nan_coordinate_gives_nan_measurement_witness :
  exists o : object,
    detectPose tt (countingNet (Fulfilled (Some (pose_of example_nan)))) 0
    = (Fulfilled o, 1)
    /\ isMeasurements o = true
    /\ hasFailureMarker o = false
    /\ o !! "shoulderWidth" = Some (VNumber nan).
Proof.
  destruct (nan_coordinate_gives_nan_measurement
              tt (countingNet (Fulfilled (Some (pose_of example_nan)))) 0 1
              (pose_of example_nan) eq_refl)
    as (o & Hd & Hm & Hf & Hs & _).
  exists o. repeat (split; [assumption|]).
  apply (Hs (keypoint "leftShoulder" nan 0) (keypoint "rightShoulder" 300 0)).
  - exists [], [keypoint "rightShoulder" 300 0].
    repeat split. intros ? [].
  - exists [keypoint "leftShoulder" nan 0], [].
    repeat split. intros k [<-|[]]. discriminate.
  - reflexivity.
Defined.

(** ** [loadPosenet] and [setupCamera] *)

(** X7.  [loadPosenet] never rejects and adds no effect to those of
    [posenet.load()].  When the load fulfils, the result is the loaded model
    itself; when it rejects, whatever the reason, the result is the object
    [{ success: false, message: "Failed to load the PoseNet model. Please
    check your internet connection." }], on which the callers' failure test
    holds. *)
Theorem loadPosenet_outcomes {W E Video} (posenet : Posenet W E Video) (w : W) :
  exists (r : PoseNet W E Video + object),
    loadPosenet posenet w = (Fulfilled r, snd (load posenet w))
    /\ match fst (load posenet w) with
       | Fulfilled net => r = inl net /\ failed r = false
       | Rejected _ =>
           r = inr {[ "success" := VBoolean false;
                      "message" :=
                        VString "Failed to load the PoseNet model. Please check your internet connection." ]}
           /\ failed r = true
       end.
Proof.
  unfold loadPosenet, try_catch, await.
  destruct (load posenet w) as [[net|e] w']; eexists; simpl;
    (split; [reflexivity|split; reflexivity]).
Qed.


(** The sample browser: no [navigator.mediaDevices]; permission denied;
    granted and loaded; granted but the metadata never loads; the prompt
    never answered. *)
Example setupCamera_samples :
  setupCamera (sampleBrowser None true) tt 0
  = Some (Fulfilled
            (inr {[ "success" := VBoolean false;
                    "message" :=
                      VString "Failed to access the camera. Please check camera permissions." ]}),
          0)
  /\ setupCamera (sampleBrowser (Some (Some (Rejected "NotAllowedError"))) true) tt 0
     = Some (Fulfilled
               (inr {[ "success" := VBoolean false;
                       "message" :=
                         VString "Failed to access the camera. Please check camera permissions." ]}),
             1)
  /\ setupCamera (sampleBrowser (Some (Some (Fulfilled 7))) true) tt 0
     = Some (Fulfilled (inl tt), 9)
  /\ setupCamera (sampleBrowser (Some (Some (Fulfilled 7))) false) tt 0 = None
  /\ setupCamera (sampleBrowser (Some None) true) tt 0 = None.
Proof. repeat split. Qed.
